(** * Custom layers of [custom-layer.ipynb]: a functional model and its properties

    The notebook [pytorch/chapter_builders-guide/custom-layer.ipynb] defines four
    [nn.Module] subclasses, each with a one-screen [forward]:

    - [CenteredLayer]            [X - X.mean()]
    - [MyLinear]                 [relu(matmul(X, weight.data) + bias.data)]
    - [TensorReductionLayer]     [einsum('nij,kij->nk', x_i * x_j, W)]
    - [FourierCoefficientsLayer] [fft(x)[:, :n // 2]]

    Part I embeds the tensor primitives these methods call and then the methods
    themselves, line by line.  Part II proves the properties.

    Modelling choices.
    - A tensor is its shape together with its elements in row-major order, as in
      the tensor library.
    - Floating-point values of the real layers are idealised as exact rationals
      ([Qc], so equality is Leibniz and everything computes) extended with one
      [NaN], which is what [mean] returns for a tensor without elements.
      Rounding and infinities are outside this idealisation: the statements
      over [Qc] are statements in exact arithmetic.  Where rounding or
      overflow decides a question, the code is evaluated in IEEE binary64
      ([torch.float64]) with the primitive floats.
    - The element type of an array is carried by [array]: [mean] refuses an
      integer array and [matmul] refuses operands of different dtypes.
    - The Fourier layer works over complex numbers built on the real numbers of
      the standard library, since the twiddle factors are not rational.
    - A Python exception is a value [Err e] of the [result] monad; [MyLinear]'s
      [self] is threaded through a state monad. *)

From Stdlib Require Import List Arith Lia Bool ZArith QArith Qcanon Reals PrimFloat.
From ExtLib Require Import Structures.Monad Structures.MonadState Data.Monads.StateMonad.
Import ListNotations.
Import MonadNotation.
Local Open Scope monad_scope.
Local Open Scope nat_scope.

(* ===================================================================== *)
(** * Part I.  Definitions                                                *)
(* ===================================================================== *)

(** ** Exceptions *)

Inductive error : Type :=
| RuntimeError   (* shape mismatch raised by a tensor primitive *)
| IndexError.    (* too many indices, dimension out of range *)

Inductive result (A : Type) : Type :=
| Ok (a : A)
| Err (e : error).

Arguments Ok {A} a.
Arguments Err {A} e.

#[global] Instance Monad_result : Monad result :=
  {| ret := fun _ a => Ok a;
     bind := fun _ _ c k => match c with Ok a => k a | Err e => Err e end |}.

(** [raises r]: the call ended in an exception. *)
Definition raises {A} (r : result A) : Prop := exists e, r = Err e.

(** [returns r]: the call returned a value. *)
Definition returns {A} (r : result A) : Prop := exists a, r = Ok a.

(** ** Scalars *)

Module Scalar.

Inductive scalar : Type :=
| Num (q : Qc)
| NaN.

Definition lift2 (f : Qc -> Qc -> Qc) (a b : scalar) : scalar :=
  match a, b with
  | Num x, Num y => Num (f x y)
  | _, _ => NaN
  end.

Definition add : scalar -> scalar -> scalar := lift2 Qcplus.
Definition sub : scalar -> scalar -> scalar := lift2 Qcminus.
Definition mul : scalar -> scalar -> scalar := lift2 Qcmult.

Definition zero : scalar := Num 0%Qc.

(** The number of elements of a tensor, as a rational. *)
Definition of_nat (n : nat) : Qc := Q2Qc (inject_Z (Z.of_nat n)).

(** [qrelu q = max(q, 0)]. *)
Definition qrelu (q : Qc) : Qc := if Qle_bool 0 q then q else 0%Qc.

Definition relu (a : scalar) : scalar :=
  match a with
  | Num q => Num (qrelu q)
  | NaN => NaN
  end.


Definition eqb (a b : scalar) : bool :=
  match a, b with
  | Num x, Num y => Qc_eq_bool x y
  | NaN, NaN => true
  | _, _ => false
  end.

(** Sum of a list of scalars. *)
Definition sum (l : list scalar) : scalar := fold_right add zero l.

(** [sum_upto n f] is the sum of [f 0 .. f (n-1)]. *)
Definition sum_upto (n : nat) (f : nat -> scalar) : scalar :=
  sum (map f (seq 0 n)).

End Scalar.

Import Scalar.

(** ** Tensors *)

Record tensor (A : Type) : Type := mkTensor
  { shape : list nat;       (* sizes of the dimensions, outermost first *)
    data : list A }.        (* elements in row-major order *)

Arguments mkTensor {A} shape data.
Arguments shape {A} t.
Arguments data {A} t.

(** Product of the sizes. *)
Definition prod (s : list nat) : nat := fold_right Nat.mul 1 s.

Definition numel {A} (t : tensor A) : nat := prod (shape t).

(** A tensor holds exactly as many elements as its shape announces. *)
Definition wf {A} (t : tensor A) : Prop := length (data t) = numel t.

(** The tensor of shape [s] whose elements are the numbers [qs]. *)
Definition of_numbers (s : list nat) (qs : list Qc) : tensor scalar :=
  mkTensor s (map Num qs).

(** ** Element types *)

Inductive dtype : Type := float32 | float64 | int64.

Definition is_floating (d : dtype) : bool :=
  match d with
  | int64 => false
  | _ => true
  end.

(** An array as a layer receives it: the element type and the tensor.  The
    elements of an integer array are the numbers [Num q] with [q] an integer. *)
Record array : Type := mkArray
  { dtype_of : dtype;
    values : tensor scalar }.

Fixpoint list_eqb {A} (eqA : A -> A -> bool) (l1 l2 : list A) : bool :=
  match l1, l2 with
  | [], [] => true
  | a :: l1', b :: l2' => eqA a b && list_eqb eqA l1' l2'
  | _, _ => false
  end.

Definition tensor_eqb (t1 t2 : tensor scalar) : bool :=
  list_eqb Nat.eqb (shape t1) (shape t2) && list_eqb Scalar.eqb (data t1) (data t2).

(** [returns_tensor r t]: the call returned the tensor [t]. *)
Definition returns_tensor (r : result (tensor scalar)) (t : tensor scalar) : bool :=
  match r with
  | Ok y => tensor_eqb y t
  | Err _ => false
  end.

(** [tab2 nr nc f]: the [nr] by [nc] table of [f], row by row. *)
Definition tab2 {A} (nr nc : nat) (f : nat -> nat -> A) : list A :=
  flat_map (fun r => map (f r) (seq 0 nc)) (seq 0 nr).


(** Sum of [f 0 .. f (n-1)] over the rationals. *)
Definition qsum_upto (n : nat) (f : nat -> Qc) : Qc :=
  fold_right Qcplus 0%Qc (map f (seq 0 n)).

(** ** The tensor primitives used by the layers *)

Module Torch.

(** *** Broadcasting *)

(** All multi-indices of a shape, in row-major order. *)
Fixpoint indices (s : list nat) : list (list nat) :=
  match s with
  | [] => [[]]
  | d :: s' => flat_map (fun i => map (cons i) (indices s')) (seq 0 d)
  end.

(** Row-major offset of a multi-index in a tensor of shape [s]; along a
    dimension of size 1 the index is ignored (the dimension is stretched). *)
Fixpoint ravel (s idx : list nat) : nat :=
  match s, idx with
  | d :: s', i :: idx' => (if d =? 1 then 0 else i) * prod s' + ravel s' idx'
  | _, _ => 0
  end.

(** Offset in an operand of shape [s] for a multi-index of the broadcast
    shape: shapes are aligned on the right, missing dimensions are dropped. *)
Definition boffset (s idx : list nat) : nat :=
  ravel s (skipn (length idx - length s) idx).

(** Two sizes broadcast when they are equal or one of them is 1. *)
Definition bdim (a b : nat) : option nat :=
  if a =? b then Some a
  else if a =? 1 then Some b
  else if b =? 1 then Some a
  else None.

(** Broadcast two shapes given innermost dimension first. *)
Fixpoint bshape_rev (r1 r2 : list nat) : option (list nat) :=
  match r1, r2 with
  | [], r | r, [] => Some r
  | a :: r1', b :: r2' =>
      match bdim a b, bshape_rev r1' r2' with
      | Some d, Some r => Some (d :: r)
      | _, _ => None
      end
  end.

Definition broadcast_shapes (s1 s2 : list nat) : option (list nat) :=
  option_map (@rev nat) (bshape_rev (rev s1) (rev s2)).

(** Elementwise binary operation with broadcasting; [d] is never read on
    well-formed operands. *)
Definition broadcast2 {A} (d : A) (f : A -> A -> A) (a b : tensor A)
  : result (tensor A) :=
  match broadcast_shapes (shape a) (shape b) with
  | Some s =>
      Ok (mkTensor s
            (map (fun idx => f (nth (boffset (shape a) idx) (data a) d)
                               (nth (boffset (shape b) idx) (data b) d))
                 (indices s)))
  | None => Err RuntimeError
  end.

(** [a + b], [a - b], [a * b] on real tensors. *)
Definition add := broadcast2 NaN Scalar.add.
Definition sub := broadcast2 NaN Scalar.sub.
Definition mul := broadcast2 NaN Scalar.mul.

(** *** Reductions and elementwise maps *)

(** [t.mean()]: a 0-dimensional tensor holding the arithmetic mean of all the
    elements; NaN when there is none. *)
Definition mean (t : tensor scalar) : tensor scalar :=
  mkTensor []
    [ match numel t with
      | O => NaN
      | S _ => match Scalar.sum (data t) with
               | Num s => Num (s / of_nat (numel t))%Qc
               | NaN => NaN
               end
      end ].

(** [X.mean()] on an array: an integer dtype is refused ("could not infer
    output dtype"). *)
Definition mean_array (X : array) : result (tensor scalar) :=
  if is_floating (dtype_of X) then Ok (mean (values X)) else Err RuntimeError.

(** [F.relu(t)]. *)
Definition relu (t : tensor scalar) : tensor scalar :=
  mkTensor (shape t) (map Scalar.relu (data t)).

(** *** Matrix product *)

(** A 2-dimensional tensor, the second operand of [matmul] below. *)
Record matrix : Type := mkMatrix
  { rows : nat; cols : nat; mdata : list scalar }.

(** [torch.matmul(X, W)] for a 2-dimensional [W]: [X] of shape
    [(..., m)] is multiplied row by row; the sizes [m] and [rows W] must be
    equal (they are never broadcast); a 0-dimensional [X] is refused. *)
Definition matmul (X : tensor scalar) (W : matrix) : result (tensor scalar) :=
  match rev (shape X) with
  | [] => Err RuntimeError
  | m :: lead =>
      if m =? rows W then
        Ok (mkTensor (rev lead ++ [cols W])
              (tab2 (prod lead) (cols W)
                 (fun r c =>
                    sum_upto m (fun i =>
                      Scalar.mul (nth (r * m + i) (data X) NaN)
                                 (nth (i * cols W + c) (mdata W) NaN)))))
      else Err RuntimeError
  end.

(** [torch.matmul(X, W)] for a float32 matrix [W]: an operand of another
    dtype is refused (the two dtypes must be the same). *)
Definition matmul_array (X : array) (W : matrix) : result (tensor scalar) :=
  match dtype_of X with
  | float32 => matmul (values X) W
  | _ => Err RuntimeError
  end.

(** A 1-dimensional tensor from its elements. *)
Definition vector (b : list scalar) : tensor scalar := mkTensor [length b] b.

(** *** Shape manipulation *)

(** [t.unsqueeze(dim)]: a dimension of size 1 inserted at [dim]; negative
    positions count from the end. *)
Definition unsqueeze {A} (t : tensor A) (dim : Z) : result (tensor A) :=
  let r := Z.of_nat (length (shape t)) in
  if ((dim <? - (r + 1)) || (r <? dim))%Z then Err IndexError
  else
    let p := Z.to_nat (if (dim <? 0)%Z then dim + r + 1 else dim)%Z in
    Ok (mkTensor (firstn p (shape t) ++ 1 :: skipn p (shape t)) (data t)).

(** [t.shape[i]]. *)
Definition shape_at {A} (t : tensor A) (i : nat) : result nat :=
  match nth_error (shape t) i with
  | Some d => Ok d
  | None => Err IndexError
  end.

(** [t[:, :h]] for [h >= 0]: the first [h] positions along dimension 1. *)
Definition slice_dim1 {A} (t : tensor A) (h : nat) : result (tensor A) :=
  match shape t with
  | d0 :: d1 :: rest =>
      let w := Nat.min h d1 in
      let p := prod rest in
      Ok (mkTensor (d0 :: w :: rest)
            (flat_map (fun i => firstn (w * p) (skipn (i * (d1 * p)) (data t)))
                      (seq 0 d0)))
  | _ => Err IndexError
  end.

(** *** Einstein summation *)

(** [torch.einsum('nij,kij->nk', [a, b])]: both operands have three
    dimensions; the sizes labelled [i], and those labelled [j], must
    broadcast; [i] and [j] are summed. *)
Definition einsum_nij_kij_nk (a b : tensor scalar) : result (tensor scalar) :=
  match shape a, shape b with
  | [n; i1; j1], [k; i2; j2] =>
      match bdim i1 i2, bdim j1 j2 with
      | Some i, Some j =>
          Ok (mkTensor [n; k]
                (tab2 n k (fun n' k' =>
                   sum_upto i (fun i' =>
                     sum_upto j (fun j' =>
                       Scalar.mul
                         (nth (ravel [n; i1; j1] [n'; i'; j']) (data a) NaN)
                         (nth (ravel [k; i2; j2] [k'; i'; j']) (data b) NaN))))))
      | _, _ => Err RuntimeError
      end
  | _, _ => Err RuntimeError
  end.

End Torch.

(** ** CenteredLayer *)

Module CenteredLayer.

(** [def forward(self, X): return X - X.mean()] *)
Definition forward (X : tensor scalar) : result (tensor scalar) :=
  Torch.sub X (Torch.mean X).

(** [forward] on an array of any element type: the result has the dtype of
    the input. *)
Definition forward_array (X : array) : result array :=
  m <- Torch.mean_array X ;;
  y <- Torch.sub (values X) m ;;
  ret (mkArray (dtype_of X) y).

(** The arithmetic mean of a non-empty list of numbers, as the contract
    words it: the sum of all the elements over their count. *)
Definition arithmetic_mean (qs : list Qc) : Qc :=
  (fold_right Qcplus 0 qs / Q2Qc (Z.of_nat (length qs) # 1))%Qc.

(** [forward] on a 1-dimensional [torch.float64] tensor, in IEEE binary64:
    the sum, the count, their quotient, and the subtraction. *)
Definition sum64 (l : list float) : float := fold_left PrimFloat.add l 0%float.

Definition count64 (l : list float) : float :=
  fold_left (fun c _ => (c + 1)%float) l 0%float.

Definition mean64 (l : list float) : float := (sum64 l / count64 l)%float.

Definition forward64 (l : list float) : list float :=
  map (fun v => (v - mean64 l)%float) l.

End CenteredLayer.

(** ** MyLinear *)

Module MyLinear.

(** An [nn.Parameter]: the values, and what autograd keeps next to them. *)
Record NnParameter (T : Type) : Type := mkParameter
  { pdata : T;
    requires_grad : bool;
    grad : option T }.

Arguments mkParameter {T} pdata requires_grad grad.
Arguments pdata {T} n.
Arguments requires_grad {T} n.
Arguments grad {T} n.

(** The attributes of a [MyLinear] instance. *)
Record t : Type := mkMyLinear
  { weight : NnParameter Torch.matrix;
    bias : NnParameter (list scalar);
    training : bool }.

(** [__init__(self, in_units, units)]; [randn] is the stream of samples
    drawn by [torch.randn]. *)
Definition init (in_units units : nat) (randn : nat -> Qc) : t :=
  {| weight :=
       mkParameter
         (Torch.mkMatrix in_units units
            (map (fun i => Num (randn i)) (seq 0 (in_units * units))))
         true None;
     bias :=
       mkParameter
         (map (fun i => Num (randn i)) (seq (in_units * units) units))
         true None;
     training := true |}.

(** [[
    def forward(self, X):
        linear = torch.matmul(X, self.weight.data) + self.bias.data
        return F.relu(linear)
    ]] *)
Definition forward (X : tensor scalar) : state t (result (tensor scalar)) :=
  self <- get ;;
  ret (prod_ <- Torch.matmul X (pdata (weight self)) ;;
       linear <- Torch.add prod_ (Torch.vector (pdata (bias self))) ;;
       ret (Torch.relu linear)).

(** The value of [layer(X)]. *)
Definition call (self : t) (X : tensor scalar) : result (tensor scalar) :=
  fst (runState (forward X) self).

(** [forward] on an array of any element type; the weight is float32. *)
Definition forward_array (X : array) : state t (result array) :=
  self <- get ;;
  ret (prod_ <- Torch.matmul_array X (pdata (weight self)) ;;
       linear <- Torch.add prod_ (Torch.vector (pdata (bias self))) ;;
       ret (mkArray float32 (Torch.relu linear))).

Definition call_array (self : t) (X : array) : result array :=
  fst (runState (forward_array X) self).


(** The layer whose weight holds the numbers [ws] ([in_units] by [units], row
    by row) and whose bias holds [bs]. *)
Definition has_params (self : t) (in_units units : nat) (ws bs : list Qc) : Prop :=
  pdata (weight self) = Torch.mkMatrix in_units units (map Num ws)
  /\ pdata (bias self) = map Num bs
  /\ length ws = in_units * units
  /\ length bs = units.


End MyLinear.

(** ** nn.Sequential, as the notebook's cells use it *)

Module Sequential.

(** A module, as the container sees it: what calling it returns. *)
Definition module : Type := tensor scalar -> result (tensor scalar).

(** [[
    def forward(self, input):
        for module in self:
            input = module(input)
        return input
    ]] *)
Fixpoint forward (modules : list module) (input : tensor scalar)
  : result (tensor scalar) :=
  match modules with
  | [] => ret input
  | m :: rest => input' <- m input ;; forward rest input'
  end.

End Sequential.

(** ** TensorReductionLayer *)

Module TensorReductionLayer.

Record t : Type := mkTensorReductionLayer
  { input_dim : nat;
    output_dim : nat;
    W : tensor scalar }.

(** [__init__(self, input_dim, output_dim)]: [W] is drawn with shape
    [(input_dim, input_dim, output_dim)]. *)
Definition init (input_dim output_dim : nat) (randn : nat -> Qc) : t :=
  {| input_dim := input_dim;
     output_dim := output_dim;
     W := of_numbers [input_dim; input_dim; output_dim]
            (map randn (seq 0 (input_dim * (input_dim * output_dim)))) |}.

(** [[
    def forward(self, x):
        x_i = x.unsqueeze(-1)
        x_j = x.unsqueeze(1)
        result = x_i * x_j
        result = torch.einsum('nij,kij->nk', [result, self.W])
        return result
    ]] *)
Definition forward (self : t) (x : tensor scalar) : result (tensor scalar) :=
  x_i <- Torch.unsqueeze x (-1) ;;
  x_j <- Torch.unsqueeze x 1 ;;
  result_ <- Torch.mul x_i x_j ;;
  Torch.einsum_nij_kij_nk result_ (W self).

(** The documented reduction [y[n,k] = sum_i sum_j W[i,j,k] x[n,i] x[n,j]]
    on the numbers: [ws] is [W] of shape [(d, d, o)] and [xs] is [x] of shape
    [(batch, d)], both row-major. *)
Definition reduction (batch d o : nat) (ws xs : list Qc) : list Qc :=
  tab2 batch o (fun n k =>
    qsum_upto d (fun i =>
      qsum_upto d (fun j =>
        nth ((i * d + j) * o + k) ws 0
        * nth (n * d + i) xs 0 * nth (n * d + j) xs 0)))%Qc.

End TensorReductionLayer.

(** ** FourierCoefficientsLayer *)

Module FourierCoefficientsLayer.

(** Complex numbers as pairs (real part, imaginary part). *)
Definition C : Type := (R * R)%type.

Definition C0 : C := (0%R, 0%R).
Definition RtoC (x : R) : C := (x, 0%R).
Definition Cadd (a b : C) : C := (fst a + fst b, snd a + snd b)%R.
Definition Cmul (a b : C) : C :=
  (fst a * fst b - snd a * snd b, fst a * snd b + snd a * fst b)%R.

Definition Csum_upto (n : nat) (f : nat -> C) : C :=
  fold_right Cadd C0 (map f (seq 0 n)).

(** [exp(-2 pi i j k / n)]. *)
Definition twiddle (n j k : nat) : C :=
  (cos (2 * PI * INR j * INR k / INR n),
   - sin (2 * PI * INR j * INR k / INR n))%R.

(** Entry [k] of the forward discrete Fourier transform of [xs], without
    normalisation: [sum_j xs[j] exp(-2 pi i j k / n)], [n] the length. *)
Definition dft_entry (xs : list C) (k : nat) : C :=
  Csum_upto (length xs) (fun j => Cmul (nth j xs C0) (twiddle (length xs) j k)).


(** The transform along the last dimension of a tensor of shape [(..., n)]. *)
Definition dft_last (t : tensor C) : tensor C :=
  match rev (shape t) with
  | [] => t
  | n :: lead =>
      mkTensor (shape t)
        (tab2 (prod lead) n (fun r k =>
           Csum_upto n (fun j =>
             Cmul (nth (r * n + j) (data t) C0) (twiddle n j k))))
  end.

(** What the layer relies on from [torch.fft.fft] (default arguments: last
    dimension, no normalisation in the forward direction): on a tensor whose
    last dimension is not empty it returns the transform of every row. *)
Definition fft_contract (fft : tensor C -> result (tensor C)) : Prop :=
  forall t lead n,
    shape t = lead ++ [n] -> numel t <> 0 -> wf t -> fft t = Ok (dft_last t).

(** What [torch.fft.fft] refuses: a tensor without dimensions, and a tensor
    without elements (an empty transform axis, an empty batch). *)
Definition fft_refuses (fft : tensor C -> result (tensor C)) : Prop :=
  (forall t, shape t = [] -> fft t = Err IndexError)
  /\ (forall t, shape t <> [] -> numel t = 0 -> fft t = Err RuntimeError).

(** [torch.fft.fft] with its default arguments. *)
Definition dft_model (t : tensor C) : result (tensor C) :=
  match shape t with
  | [] => Err IndexError
  | _ => if numel t =? 0 then Err RuntimeError else Ok (dft_last t)
  end.

(** The argument of [forward]: real or complex values. *)
Inductive input : Type :=
| Real (x : tensor R)
| Complex (x : tensor C).

(** [torch.tensor(x, dtype=torch.complex64)] *)
Definition to_complex64 (x : input) : tensor C :=
  match x with
  | Real t => mkTensor (shape t) (map RtoC (data t))
  | Complex t => t
  end.

(** [[
    def forward(self, x):
        fft = torch.fft.fft(torch.tensor(x, dtype=torch.complex64))
        half = fft[:, :fft.shape[1] // 2]
        return half
    ]] *)
Definition forward (fft : tensor C -> result (tensor C)) (x : input)
  : result (tensor C) :=
  fft_ <- fft (to_complex64 x) ;;
  n <- Torch.shape_at fft_ 1 ;;
  half <- Torch.slice_dim1 fft_ (n / 2) ;;
  ret half.

(** The shape of the argument, and whether it is well formed. *)
Definition input_shape (x : input) : list nat :=
  match x with
  | Real t => shape t
  | Complex t => shape t
  end.

Definition input_wf (x : input) : Prop :=
  match x with
  | Real t => wf t
  | Complex t => wf t
  end.


(** Row [r] of a row-major table with [n] columns. *)
Definition row {A} (n r : nat) (l : list A) : list A :=
  firstn n (skipn (r * n) l).

End FourierCoefficientsLayer.

(* ===================================================================== *)
(** * Part II.  Properties                                                *)
(* ===================================================================== *)

(** ** Lists cut in rows *)

Lemma flat_map_ext_on {X A} (f g : X -> list A) (l : list X) :
  (forall x, In x l -> f x = g x) -> flat_map f l = flat_map g l.
Proof.
  induction l as [|x l IH]; simpl; intros H; [reflexivity|].
  rewrite (H x) by now left.
  rewrite IH; [reflexivity|]. intros y Hy. apply H. now right.
Qed.

Section ListFacts.

Context {A : Type}.

Lemma map_over_flat_map {X B} (g : A -> B) (f : X -> list A) (l : list X) :
  map g (flat_map f l) = flat_map (fun x => map g (f x)) l.
Proof.
  induction l as [|x l IH]; simpl; [reflexivity|].
  now rewrite map_app, IH.
Qed.


Lemma firstn_add (n m : nat) (l : list A) :
  firstn (n + m) l = firstn n l ++ firstn m (skipn n l).
Proof.
  revert l. induction n as [|n IH]; intros l; [reflexivity|].
  destruct l as [|a l]; simpl.
  - now rewrite firstn_nil.
  - now rewrite IH.
Qed.

(** Rows [a .. a+d-1], each of [p] elements, laid end to end. *)
Lemma rows_from (p d a : nat) (l : list A) :
  flat_map (fun i => firstn p (skipn (i * p) l)) (seq a d)
  = firstn (d * p) (skipn (a * p) l).
Proof.
  revert a. induction d as [|d IH]; intros a; simpl; [reflexivity|].
  rewrite IH, firstn_add. f_equal.
  rewrite skipn_skipn. do 2 f_equal; lia.
Qed.

Lemma rows_all (p d : nat) (l : list A) :
  length l = d * p ->
  flat_map (fun i => firstn p (skipn (i * p) l)) (seq 0 d) = l.
Proof.
  intros H. rewrite rows_from. simpl. apply firstn_all2. lia.
Qed.

Lemma length_row (p d i : nat) (l : list A) :
  length l = d * p -> i < d -> length (firstn p (skipn (i * p) l)) = p.
Proof.
  intros H Hi. rewrite length_firstn, length_skipn. nia.
Qed.

Lemma nth_row (p i k : nat) (l : list A) (d : A) :
  k < p -> nth k (firstn p (skipn (i * p) l)) d = nth (i * p + k) l d.
Proof.
  intros Hk. rewrite nth_firstn.
  destruct (Nat.ltb_spec k p); [|lia]. apply nth_skipn.
Qed.

(** In a list made of [b] rows of [w] elements, row [r] is the [r]-th one. *)
Lemma row_of_rows (g : nat -> list A) (w b a r : nat) :
  (forall i, i < b -> length (g (a + i)) = w) -> r < b ->
  firstn w (skipn (r * w) (flat_map g (seq a b))) = g (a + r).
Proof.
  revert a r. induction b as [|b IH]; intros a r Hg Hr; [lia|].
  cbn [seq flat_map].
  assert (Ha : length (g a) = w) by (rewrite <- (Nat.add_0_r a); apply Hg; lia).
  destruct r as [|r].
  - rewrite Nat.add_0_r. cbn [Nat.mul skipn].
    rewrite firstn_app, Ha, Nat.sub_diag, firstn_0, app_nil_r.
    rewrite <- Ha. apply firstn_all.
  - rewrite skipn_app, Ha.
    rewrite skipn_all2 by (rewrite Ha; simpl; lia).
    replace (S r * w - w) with (r * w) by (simpl; lia).
    cbn [app]. rewrite IH; [f_equal; lia| |lia].
    intros i Hi. replace (S a + i) with (a + S i) by lia. apply Hg. lia.
Qed.

Lemma length_rows (g : nat -> list A) (w b a : nat) :
  (forall i, i < b -> length (g (a + i)) = w) ->
  length (flat_map g (seq a b)) = b * w.
Proof.
  revert a. induction b as [|b IH]; intros a Hg; [reflexivity|].
  cbn [seq flat_map]. rewrite length_app, IH.
  - rewrite <- (Nat.add_0_r a) at 1. rewrite Hg by lia. simpl. lia.
  - intros i Hi. replace (S a + i) with (a + S i) by lia. apply Hg. lia.
Qed.

Lemma flat_map_nil {X} (l : list X) : flat_map (fun _ => @nil A) l = [].
Proof. induction l; simpl; auto. Qed.

Lemma nth_all (l : list A) (d : A) :
  map (fun j => nth j l d) (seq 0 (length l)) = l.
Proof.
  induction l as [|a l IH]; [reflexivity|].
  cbn [length seq map nth]. f_equal.
  rewrite <- seq_shift, map_map. exact IH.
Qed.




Lemma row_tab2 (nr nc : nat) (f : nat -> nat -> A) (r : nat) :
  r < nr -> firstn nc (skipn (r * nc) (tab2 nr nc f)) = map (f r) (seq 0 nc).
Proof.
  intros Hr. unfold tab2.
  rewrite (row_of_rows (fun r => map (f r) (seq 0 nc)) nc nr 0 r);
    [reflexivity| |exact Hr].
  intros i _. now rewrite length_map, length_seq.
Qed.

Lemma tab2_ext (nr nc : nat) (f g : nat -> nat -> A) :
  (forall r c, r < nr -> c < nc -> f r c = g r c) ->
  tab2 nr nc f = tab2 nr nc g.
Proof.
  intros H. unfold tab2. apply flat_map_ext_on. intros r Hr.
  apply map_ext_in. intros c Hc.
  apply in_seq in Hr. apply in_seq in Hc. apply H; lia.
Qed.

Lemma map_tab2 {B} (g : A -> B) (nr nc : nat) (f : nat -> nat -> A) :
  map g (tab2 nr nc f) = tab2 nr nc (fun r c => g (f r c)).
Proof.
  unfold tab2. rewrite map_over_flat_map.
  apply flat_map_ext_on. intros r _. apply map_map.
Qed.

End ListFacts.





(** ** Rational arithmetic *)

Lemma of_nat_S (n : nat) : of_nat (S n) = (of_nat n + 1)%Qc.
Proof.
  unfold of_nat. apply Qc_is_canon. unfold Qcplus. cbn [this Q2Qc].
  rewrite !Qred_correct, Nat2Z.inj_succ.
  unfold Z.succ. rewrite inject_Z_plus. reflexivity.
Qed.

Lemma of_nat_pos (n : nat) : n <> 0 -> of_nat n <> 0%Qc.
Proof.
  intros Hn H. apply Hn.
  apply (f_equal this) in H. unfold of_nat, Q2Qc in H. cbn [this] in H.
  assert (E : inject_Z (Z.of_nat n) == 0).
  { rewrite <- (Qred_correct (inject_Z (Z.of_nat n))), H. reflexivity. }
  unfold Qeq in E. simpl in E. lia.
Qed.



Lemma scalar_eqb_eq (a b : scalar) : Scalar.eqb a b = true -> a = b.
Proof.
  destruct a, b; simpl; try discriminate; [|reflexivity].
  intros H. f_equal. now apply Qc_eq_bool_correct.
Qed.

Lemma list_eqb_eq {A} (eqA : A -> A -> bool) :
  (forall a b, eqA a b = true -> a = b) ->
  forall l1 l2, list_eqb eqA l1 l2 = true -> l1 = l2.
Proof.
  intros HA. induction l1 as [|a l1 IH]; destruct l2 as [|b l2]; simpl;
    try discriminate; [reflexivity|].
  intros H. apply andb_true_iff in H. destruct H as [H1 H2].
  f_equal; auto.
Qed.

Lemma tensor_eqb_eq (t1 t2 : tensor scalar) : tensor_eqb t1 t2 = true -> t1 = t2.
Proof.
  destruct t1 as [s1 d1], t2 as [s2 d2]. unfold tensor_eqb. simpl.
  intros H. apply andb_true_iff in H. destruct H as [H1 H2].
  apply list_eqb_eq in H1; [|intros a b E; now apply Nat.eqb_eq].
  apply list_eqb_eq in H2; [|exact scalar_eqb_eq].
  congruence.
Qed.

Lemma returns_tensor_eq (r : result (tensor scalar)) (t : tensor scalar) :
  returns_tensor r t = true -> r = Ok t.
Proof.
  destruct r as [y|e]; simpl; [|discriminate].
  intros H. f_equal. now apply tensor_eqb_eq.
Qed.

(** Sums of numbers are numbers. *)
Lemma sum_numbers (qs : list Qc) :
  Scalar.sum (map Num qs) = Num (fold_right Qcplus 0%Qc qs).
Proof.
  unfold Scalar.sum.
  induction qs as [|q qs IH]; cbn [map fold_right]; [reflexivity|].
  now rewrite IH.
Qed.

Lemma sum_upto_numbers (n : nat) (f : nat -> Qc) (g : nat -> scalar) :
  (forall i, i < n -> g i = Num (f i)) ->
  sum_upto n g = Num (qsum_upto n f).
Proof.
  intros H. unfold sum_upto, qsum_upto.
  rewrite <- sum_numbers, map_map. f_equal.
  apply map_ext_in. intros i Hi. apply in_seq in Hi. apply H. lia.
Qed.

Lemma nth_numbers (qs : list Qc) (i : nat) :
  i < length qs -> nth i (map Num qs) NaN = Num (nth i qs 0%Qc).
Proof.
  intros H. rewrite (nth_indep _ NaN (Num 0%Qc)) by now rewrite length_map.
  apply map_nth.
Qed.

Lemma qsum_upto_ext (n : nat) (f g : nat -> Qc) :
  (forall i, i < n -> f i = g i) -> qsum_upto n f = qsum_upto n g.
Proof.
  intros H. unfold qsum_upto. f_equal.
  apply map_ext_in. intros i Hi. apply in_seq in Hi. apply H. lia.
Qed.

Lemma qsum_upto_scale (c : Qc) (n : nat) (f : nat -> Qc) :
  qsum_upto n (fun i => c * f i)%Qc = (c * qsum_upto n f)%Qc.
Proof.
  unfold qsum_upto. induction (seq 0 n) as [|i l IH]; cbn [map fold_right].
  - ring.
  - rewrite IH. ring.
Qed.

Lemma nth_scaled (c : Qc) (qs : list Qc) (i : nat) :
  nth i (map (Qcmult c) qs) 0%Qc = (c * nth i qs 0)%Qc.
Proof.
  rewrite <- (Qcmult_0_r c) at 1. apply (map_nth (Qcmult c)).
Qed.

(** ** Broadcasting *)

Module TorchFacts.

Import Torch.

Lemma in_indices_cons (d : nat) (s idx : list nat) :
  In idx (indices (d :: s)) <->
  exists i idx', idx = i :: idx' /\ i < d /\ In idx' (indices s).
Proof.
  simpl. rewrite in_flat_map. split.
  - intros [i [Hi H]]. apply in_map_iff in H. destruct H as [idx' [E H]].
    apply in_seq in Hi. exists i, idx'. repeat split; [congruence|lia|assumption].
  - intros [i [idx' [E [Hi H]]]]. exists i. split; [apply in_seq; lia|].
    apply in_map_iff. exists idx'. split; [congruence|assumption].
Qed.

Lemma length_index (s idx : list nat) :
  In idx (indices s) -> length idx = length s.
Proof.
  revert idx. induction s as [|d s IH]; intros idx H.
  - destruct H as [<-|[]]. reflexivity.
  - apply in_indices_cons in H. destruct H as [i [idx' [-> [_ H]]]].
    simpl. f_equal. auto.
Qed.

Lemma ravel_lt (s idx : list nat) :
  In idx (indices s) -> ravel s idx < prod s.
Proof.
  revert idx. induction s as [|d s IH]; intros idx H.
  - simpl. lia.
  - apply in_indices_cons in H. destruct H as [i [idx' [-> [Hi H]]]].
    specialize (IH _ H). simpl. fold (prod s).
    destruct (Nat.eqb_spec d 1); nia.
Qed.

Lemma map_indices_cons {B} (F : list nat -> B) (d : nat) (s : list nat) :
  map F (indices (d :: s))
  = flat_map (fun i => map (fun idx => F (i :: idx)) (indices s)) (seq 0 d).
Proof.
  simpl. rewrite map_over_flat_map.
  apply flat_map_ext_on. intros i _. apply map_map.
Qed.

(** Reading a tensor at every multi-index of its own shape visits its
    elements in order. *)
Lemma gather_map {A B} (g : A -> B) (d : A) (s : list nat) :
  forall l : list A,
    length l = prod s ->
    map (fun idx => g (nth (ravel s idx) l d)) (indices s) = map g l.
Proof.
  induction s as [|d0 s IH]; intros l Hl.
  - simpl in *. destruct l as [|x [|y l]]; simpl in Hl; try lia. reflexivity.
  - rewrite map_indices_cons.
    simpl in Hl. fold (prod s) in Hl.
    replace (map g l)
      with (map g (flat_map (fun i => firstn (prod s) (skipn (i * prod s) l))
                            (seq 0 d0)))
      by (rewrite rows_all by lia; reflexivity).
    rewrite map_over_flat_map.
    apply flat_map_ext_on. intros i Hi. apply in_seq in Hi.
    rewrite <- (IH (firstn (prod s) (skipn (i * prod s) l)))
      by (apply (length_row (prod s) d0); [exact Hl | lia]).
    apply map_ext_in. intros idx Hidx. f_equal.
    rewrite nth_row by now apply ravel_lt.
    simpl. fold (prod s). f_equal.
    destruct (Nat.eqb_spec d0 1); [|reflexivity]. f_equal. lia.
Qed.

Lemma broadcast_shapes_scalar (s : list nat) : broadcast_shapes s [] = Some s.
Proof.
  unfold broadcast_shapes. change (rev (@nil nat)) with (@nil nat).
  assert (E : bshape_rev (rev s) [] = Some (rev s)) by now destruct (rev s).
  rewrite E. simpl. now rewrite rev_involutive.
Qed.

(** [X - m] for a 0-dimensional [m] subtracts it from every element. *)
Lemma sub_scalar (X : tensor scalar) (m : scalar) :
  wf X ->
  sub X (mkTensor [] [m])
  = Ok (mkTensor (shape X) (map (fun v => Scalar.sub v m) (data X))).
Proof.
  intros H. unfold sub, broadcast2. simpl shape.
  rewrite broadcast_shapes_scalar. do 2 f_equal.
  rewrite <- (gather_map (fun v => Scalar.sub v m) NaN (shape X)) by exact H.
  apply map_ext_in. intros idx Hidx.
  unfold boffset. rewrite (length_index _ _ Hidx), Nat.sub_diag.
  reflexivity.
Qed.

Lemma stretch_index (d i : nat) : i < d -> (if d =? 1 then 0 else i) = i.
Proof. intros H. destruct (Nat.eqb_spec d 1); lia. Qed.


Lemma bdim_same (a : nat) : bdim a a = Some a.
Proof. unfold bdim. now rewrite Nat.eqb_refl. Qed.



(** [matmul] refuses an operand whose last dimension is not [rows W]. *)
Lemma matmul_mismatch (X : tensor scalar) (W : matrix) (lead : list nat) (m : nat) :
  shape X = lead ++ [m] -> m <> rows W -> matmul X W = Err RuntimeError.
Proof.
  intros Hs Hm. unfold matmul. rewrite Hs, rev_unit.
  destruct (Nat.eqb_spec m (rows W)); [contradiction|reflexivity].
Qed.


Lemma bdim_1_l (a : nat) : bdim 1 a = Some a.
Proof. unfold bdim. now destruct (Nat.eqb_spec 1 a); subst. Qed.

Lemma bdim_1_r (a : nat) : bdim a 1 = Some a.
Proof. unfold bdim. destruct (Nat.eqb_spec a 1); subst; reflexivity. Qed.

Lemma bdim_none (a b : nat) : a <> b -> a <> 1 -> b <> 1 -> bdim a b = None.
Proof.
  intros Hab Ha Hb. unfold bdim.
  destruct (Nat.eqb_spec a b); [contradiction|].
  destruct (Nat.eqb_spec a 1); [contradiction|].
  destruct (Nat.eqb_spec b 1); [contradiction|reflexivity].
Qed.

Lemma length_indices (s : list nat) : length (indices s) = prod s.
Proof.
  induction s as [|d s IH]; [reflexivity|].
  cbn [indices prod fold_right]. fold (prod s).
  apply (length_rows (fun i => map (cons i) (indices s)) (prod s) d 0).
  intros i _. now rewrite length_map.
Qed.

(** The table of [F] over the multi-indices of [s], read at the offset of a
    multi-index, gives [F] there. *)
Lemma nth_ravel_indices {B} (dflt : B) (s : list nat) :
  forall (F : list nat -> B) (idx : list nat),
    In idx (indices s) ->
    nth (ravel s idx) (map F (indices s)) dflt = F idx.
Proof.
  induction s as [|d s IH]; intros F idx H.
  - destruct H as [<-|[]]. reflexivity.
  - apply in_indices_cons in H. destruct H as [i [idx' [-> [Hi H]]]].
    rewrite map_indices_cons. cbn [ravel]. fold (prod s).
    rewrite stretch_index by exact Hi.
    rewrite <- nth_row by now apply ravel_lt.
    rewrite (row_of_rows
               (fun i => map (fun idx => F (i :: idx)) (indices s))
               (prod s) d 0 i); [|intros; now rewrite length_map, length_indices|exact Hi].
    apply (IH (fun idx => F (i :: idx))). exact H.
Qed.

Lemma in_indices3 (n1 n2 n3 a i j : nat) :
  a < n1 -> i < n2 -> j < n3 -> In [a; i; j] (indices [n1; n2; n3]).
Proof.
  intros Ha Hi Hj.
  apply in_indices_cons. exists a, [i; j]. repeat split; [exact Ha|].
  apply in_indices_cons. exists i, [j]. repeat split; [exact Hi|].
  apply in_indices_cons. exists j, []. repeat split; [exact Hj|].
  now left.
Qed.

Lemma unsqueeze_last_2d {A} (n d : nat) (l : list A) :
  unsqueeze (mkTensor [n; d] l) (-1) = Ok (mkTensor [n; d; 1] l).
Proof. reflexivity. Qed.

Lemma unsqueeze_1_2d {A} (n d : nat) (l : list A) :
  unsqueeze (mkTensor [n; d] l) 1 = Ok (mkTensor [n; 1; d] l).
Proof. reflexivity. Qed.

(** [x.unsqueeze(-1) * x.unsqueeze(1)] for [x] of shape [(n, d)] has shape
    [(n, d, d)]. *)
Lemma outer_shape {A} (dflt : A) (f : A -> A -> A) (n d : nat) (l : list A) :
  broadcast2 dflt f (mkTensor [n; d; 1] l) (mkTensor [n; 1; d] l)
  = Ok (mkTensor [n; d; d]
          (map (fun idx => f (nth (boffset [n; d; 1] idx) l dflt)
                             (nth (boffset [n; 1; d] idx) l dflt))
               (indices [n; d; d]))).
Proof.
  unfold broadcast2, broadcast_shapes.
  cbn [shape data rev app bshape_rev].
  rewrite bdim_1_l, bdim_1_r, bdim_same. reflexivity.
Qed.

(** Its element [(a, i, j)] is [x[a,i] * x[a,j]]. *)
Lemma outer_entry (n d a i j : nat) (xs : list Qc) :
  length xs = n * d -> a < n -> i < d -> j < d ->
  Scalar.mul (nth (boffset [n; d; 1] [a; i; j]) (map Num xs) NaN)
             (nth (boffset [n; 1; d] [a; i; j]) (map Num xs) NaN)
  = Num (nth (a * d + i) xs 0 * nth (a * d + j) xs 0)%Qc.
Proof.
  intros Hl Ha Hi Hj. unfold boffset.
  cbn [length skipn Nat.sub ravel prod fold_right].
  rewrite !Nat.eqb_refl, !stretch_index by assumption.
  replace (a * (d * (1 * 1)) + (i * (1 * 1) + (0 * 1 + 0))) with (a * d + i) by lia.
  replace (a * (1 * (d * 1)) + (0 * (d * 1) + (j * 1 + 0))) with (a * d + j) by lia.
  now rewrite !nth_numbers by nia.
Qed.

(** [t[:, :h]] on a 2-dimensional tensor keeps the first [h] elements of
    every row. *)
Lemma slice_cols {A} (nr nc h : nat) (l : list A) :
  slice_dim1 (mkTensor [nr; nc] l) h
  = Ok (mkTensor [nr; Nat.min h nc]
          (flat_map (fun i => firstn (Nat.min h nc) (skipn (i * nc) l))
                    (seq 0 nr))).
Proof.
  unfold slice_dim1. cbn [shape data prod fold_right].
  now rewrite !Nat.mul_1_r.
Qed.

(** *** Tensors of any rank whose last dimension is the one operated on *)





Lemma broadcast_shapes_lead (lead : list nat) (u : nat) :
  broadcast_shapes (lead ++ [u]) [u] = Some (lead ++ [u]).
Proof.
  unfold broadcast_shapes. rewrite rev_unit.
  change (rev [u]) with [u]. cbn [bshape_rev].
  rewrite bdim_same.
  assert (E : bshape_rev (rev lead) [] = Some (rev lead)) by now destruct (rev lead).
  rewrite E. cbn [option_map rev]. now rewrite rev_involutive.
Qed.






(** [matmul] returns exactly on the operands that have a last dimension, and
    that equal to [rows W]; the result replaces it by [cols W]. *)
Lemma matmul_returns (X : tensor scalar) (W : matrix) (lead : list nat) :
  shape X = lead ++ [rows W] ->
  exists l, matmul X W = Ok (mkTensor (lead ++ [cols W]) l).
Proof.
  intros Hs. unfold matmul. rewrite Hs, rev_unit, Nat.eqb_refl, rev_involutive.
  eexists. reflexivity.
Qed.

Lemma matmul_inv (X : tensor scalar) (W : matrix) (P : tensor scalar) :
  matmul X W = Ok P ->
  exists lead, shape X = lead ++ [rows W] /\ shape P = lead ++ [cols W].
Proof.
  unfold matmul. destruct (rev (shape X)) as [|m l] eqn:E; [discriminate|].
  destruct (Nat.eqb_spec m (rows W)) as [->|]; [|discriminate].
  intros H. injection H as <-. exists (rev l). split; [|reflexivity].
  rewrite <- (rev_involutive (shape X)), E. reflexivity.
Qed.

Lemma add_bias_returns (P : tensor scalar) (b : list scalar) (lead : list nat) :
  shape P = lead ++ [length b] ->
  exists l, add P (vector b) = Ok (mkTensor (lead ++ [length b]) l).
Proof.
  intros Hs. unfold add, broadcast2, vector. cbn [shape data].
  rewrite Hs, broadcast_shapes_lead. eexists. reflexivity.
Qed.

(** *** Ranks *)

Lemma unsqueeze_last {A} (t : tensor A) :
  unsqueeze t (-1) = Ok (mkTensor (shape t ++ [1]) (data t)).
Proof.
  unfold unsqueeze.
  destruct ((-1 <? - (Z.of_nat (length (shape t)) + 1))
            || (Z.of_nat (length (shape t)) <? -1))%Z eqn:E.
  - apply orb_true_iff in E. destruct E as [E|E]; apply Z.ltb_lt in E; lia.
  - change (-1 <? 0)%Z with true. cbv iota.
    replace (-1 + Z.of_nat (length (shape t)) + 1)%Z
      with (Z.of_nat (length (shape t))) by lia.
    now rewrite Nat2Z.id, firstn_all, skipn_all.
Qed.

Lemma unsqueeze_1_scalar {A} (t : tensor A) :
  shape t = [] -> unsqueeze t 1 = Err IndexError.
Proof. intros H. unfold unsqueeze. now rewrite H. Qed.

Lemma unsqueeze_1_some {A} (t : tensor A) (d : nat) (s : list nat) :
  shape t = d :: s -> unsqueeze t 1 = Ok (mkTensor (d :: 1 :: s) (data t)).
Proof.
  intros H. unfold unsqueeze. rewrite H.
  destruct ((1 <? - (Z.of_nat (length (d :: s)) + 1))
            || (Z.of_nat (length (d :: s)) <? 1))%Z eqn:E.
  - apply orb_true_iff in E. cbn [length] in E.
    destruct E as [E|E]; apply Z.ltb_lt in E; lia.
  - reflexivity.
Qed.

Lemma bshape_rev_length (r1 r2 r : list nat) :
  bshape_rev r1 r2 = Some r -> length r = Nat.max (length r1) (length r2).
Proof.
  revert r2 r. induction r1 as [|a r1 IH]; intros r2 r H.
  - cbn [bshape_rev] in H. injection H as <-. reflexivity.
  - destruct r2 as [|b r2].
    + cbn [bshape_rev] in H. injection H as <-. cbn [length]. lia.
    + cbn [bshape_rev] in H.
      destruct (bdim a b); [|discriminate].
      destruct (bshape_rev r1 r2) as [r'|] eqn:E; [|discriminate].
      injection H as <-. cbn [length]. rewrite (IH _ _ E). lia.
Qed.

Lemma broadcast_shapes_length (s1 s2 s : list nat) :
  broadcast_shapes s1 s2 = Some s ->
  length s = Nat.max (length s1) (length s2).
Proof.
  unfold broadcast_shapes.
  destruct (bshape_rev (rev s1) (rev s2)) as [r|] eqn:E; [|discriminate].
  intros H. injection H as <-.
  rewrite length_rev, (bshape_rev_length _ _ _ E), !length_rev. reflexivity.
Qed.

Lemma einsum_rank (a b : tensor scalar) :
  length (shape a) <> 3 -> einsum_nij_kij_nk a b = Err RuntimeError.
Proof.
  intros H. unfold einsum_nij_kij_nk.
  destruct (shape a) as [|n [|i [|j [|z s]]]]; try reflexivity.
  now contradiction H.
Qed.


End TorchFacts.

(** ** CenteredLayer *)

Module CenteredLayerFacts.

Import CenteredLayer.

Lemma arithmetic_mean_eq (qs : list Qc) :
  arithmetic_mean qs = (fold_right Qcplus 0 qs / of_nat (length qs))%Qc.
Proof. reflexivity. Qed.

Lemma mean_numbers (s : list nat) (qs : list Qc) :
  length qs = prod s -> prod s <> 0 ->
  Torch.mean (of_numbers s qs) = mkTensor [] [Num (arithmetic_mean qs)].
Proof.
  intros Hl Hn. rewrite arithmetic_mean_eq. unfold Torch.mean, numel, of_numbers.
  cbn [shape data]. rewrite sum_numbers, Hl.
  destruct (prod s); [contradiction|reflexivity].
Qed.

Lemma forward_numbers (s : list nat) (qs : list Qc) :
  length qs = prod s -> prod s <> 0 ->
  forward (of_numbers s qs)
  = Ok (of_numbers s (map (fun q => q - arithmetic_mean qs)%Qc qs)).
Proof.
  intros Hl Hn. unfold forward.
  rewrite mean_numbers by assumption.
  rewrite TorchFacts.sub_scalar
    by (unfold wf, numel, of_numbers; cbn [shape data]; now rewrite length_map).
  unfold of_numbers. cbn [shape data]. now rewrite !map_map.
Qed.

Lemma qsum_shift (m : Qc) (qs : list Qc) :
  fold_right Qcplus 0%Qc (map (fun q => q - m)%Qc qs)
  = (fold_right Qcplus 0 qs - of_nat (length qs) * m)%Qc.
Proof.
  induction qs as [|q qs IH]; cbn [map fold_right length].
  - change (of_nat 0) with 0%Qc. ring.
  - rewrite IH, of_nat_S. ring.
Qed.

(** The mean of the centred numbers is zero. *)
Lemma arithmetic_mean_centered (qs : list Qc) :
  qs <> [] ->
  arithmetic_mean (map (fun q => q - arithmetic_mean qs)%Qc qs) = 0%Qc.
Proof.
  intros Hne. rewrite !arithmetic_mean_eq.
  rewrite qsum_shift, length_map.
  assert (Hn : of_nat (length qs) <> 0%Qc).
  { apply of_nat_pos. destruct qs; [contradiction|discriminate]. }
  field. exact Hn.
Qed.

Lemma nonempty_numbers (s : list nat) (qs : list Qc) :
  length qs = prod s -> prod s <> 0 -> qs <> [].
Proof. intros Hl Hn ->. simpl in Hl. congruence. Qed.

(** [forward] on a floating array is [forward] on its tensor; an integer
    array is refused by [mean]. *)
Lemma forward_array_floating (d : dtype) (x : tensor scalar) :
  is_floating d = true ->
  forward_array (mkArray d x)
  = match forward x with
    | Ok y => Ok (mkArray d y)
    | Err e => Err e
    end.
Proof. intros H. destruct d; [reflexivity|reflexivity|discriminate H]. Qed.

Lemma forward_array_numbers (d : dtype) (s : list nat) (qs : list Qc) :
  is_floating d = true -> length qs = prod s -> prod s <> 0 ->
  forward_array (mkArray d (of_numbers s qs))
  = Ok (mkArray d (of_numbers s (map (fun q => q - arithmetic_mean qs)%Qc qs))).
Proof.
  intros Hd Hl Hn.
  now rewrite forward_array_floating, forward_numbers by assumption.
Qed.




(** C5, as the code has it.  On a non-empty floating-point array of numbers,
    in exact arithmetic, the elements of the output sum to zero and so their
    arithmetic mean is zero. *)
Theorem forward_array_mean_zero (d : dtype) (s : list nat) (qs : list Qc) :
  is_floating d = true ->
  length qs = prod s -> prod s <> 0 ->
  exists ys,
    forward_array (mkArray d (of_numbers s qs)) = Ok (mkArray d (of_numbers s ys))
    /\ length ys = length qs
    /\ fold_right Qcplus 0%Qc ys = 0%Qc
    /\ arithmetic_mean ys = 0%Qc.
Proof.
  intros Hd Hl Hn. eexists.
  split; [now apply forward_array_numbers|].
  split; [apply length_map|].
  assert (Hne : qs <> []) by now apply (nonempty_numbers s).
  assert (Hc : of_nat (length qs) <> 0%Qc).
  { apply of_nat_pos. destruct qs; [contradiction|discriminate]. }
  split; [|now apply arithmetic_mean_centered].
  rewrite qsum_shift, arithmetic_mean_eq. field. exact Hc.
Qed.

Lemma forward_array_mean_zero_witness :
  exists ys,
    forward_array (mkArray float64 (of_numbers [3] [Q2Qc 1; Q2Qc 2; Q2Qc 6]))
    = Ok (mkArray float64 (of_numbers [3] ys))
    /\ length ys = 3
    /\ fold_right Qcplus 0%Qc ys = 0%Qc
    /\ arithmetic_mean ys = 0%Qc.
Proof.
  apply (forward_array_mean_zero float64 [3] [Q2Qc 1; Q2Qc 2; Q2Qc 6]).
  - reflexivity.
  - reflexivity.
  - simpl. lia.
Defined.

(** C5, as stated, fails twice.  The integer array [[1, 2, 3]] has no output
    at all.  And in floating point the mean of the output need not be near
    zero: on the float64 array [[2^1023, 2^1023]] the sum overflows, the
    output is [[-inf, -inf]] and its mean is [-inf]. *)
Lemma mean_zero_fails :
  forward_array (mkArray int64 (of_numbers [3] [Q2Qc 1; Q2Qc 2; Q2Qc 3]))
  = Err RuntimeError
  /\ forward64 [0x1p+1023%float; 0x1p+1023%float] = [neg_infinity; neg_infinity]
  /\ mean64 (forward64 [0x1p+1023%float; 0x1p+1023%float]) = neg_infinity.
Proof.
  split; [reflexivity|]. split; vm_compute; reflexivity.
Qed.



(** C7, as the code has it.  A floating-point array without elements is not
    rejected: [forward] returns it as it is, whatever its shape.  An integer
    array, empty or not, is refused by [mean]. *)
Theorem forward_array_empty :
  (forall d x,
     is_floating d = true -> wf x -> numel x = 0 ->
     forward_array (mkArray d x) = Ok (mkArray d x))
  /\ (forall x, forward_array (mkArray int64 x) = Err RuntimeError).
Proof.
  split; [|reflexivity].
  intros d x Hd Hwf H0. rewrite forward_array_floating by exact Hd.
  unfold forward, Torch.mean.
  rewrite TorchFacts.sub_scalar by exact Hwf.
  destruct x as [s l]. unfold wf, numel in *. cbn [shape data] in *.
  rewrite H0 in Hwf. destruct l; [reflexivity|discriminate].
Qed.

Lemma forward_array_empty_witness :
  forward_array (mkArray float32 (mkTensor [2; 0] []))
  = Ok (mkArray float32 (mkTensor [2; 0] []))
  /\ forward_array (mkArray int64 (mkTensor [0] [])) = Err RuntimeError.
Proof.
  split.
  - apply (proj1 forward_array_empty float32 (mkTensor [2; 0] []));
      reflexivity.
  - apply (proj2 forward_array_empty (mkTensor [0] [])).
Defined.

(** C7, as stated, fails: the floating-point array of shape [(0,)] is not
    rejected. *)
Lemma forward_array_empty_not_rejected :
  wf (mkTensor [0] (@nil scalar))
  /\ numel (mkTensor [0] (@nil scalar)) = 0
  /\ forward_array (mkArray float32 (mkTensor [0] []))
     = Ok (mkArray float32 (mkTensor [0] []))
  /\ ~ raises (forward_array (mkArray float32 (mkTensor [0] []))).
Proof.
  repeat split. intros [e H]. discriminate H.
Qed.

(** The notebook's check: [layer(torch.tensor([1.0, 2, 3, 4, 5]))] is
    [tensor([-2., -1., 0., 1., 2.])]. *)
Example forward_notebook :
  forward (of_numbers [5] [Q2Qc 1; Q2Qc 2; Q2Qc 3; Q2Qc 4; Q2Qc 5])
  = Ok (of_numbers [5] [Q2Qc (-2); Q2Qc (-1); Q2Qc 0; Q2Qc 1; Q2Qc 2]).
Proof. apply returns_tensor_eq. vm_compute. reflexivity. Qed.

(** *** Shifts, scalings, constants, NaN, and the layer at the end of a net *)

Lemma qsum_scale (c : Qc) (qs : list Qc) :
  fold_right Qcplus 0%Qc (map (Qcmult c) qs) = (c * fold_right Qcplus 0 qs)%Qc.
Proof.
  induction qs as [|q qs IH]; cbn [map fold_right]; [ring|].
  rewrite IH. ring.
Qed.

Lemma arithmetic_mean_shift (c : Qc) (qs : list Qc) :
  qs <> [] ->
  arithmetic_mean (map (fun q => q + c)%Qc qs) = (arithmetic_mean qs + c)%Qc.
Proof.
  intros Hne. rewrite !arithmetic_mean_eq.
  rewrite (map_ext (fun q => q + c)%Qc (fun q => q - (- c))%Qc)
    by (intros q; ring).
  rewrite qsum_shift, length_map.
  assert (Hn : of_nat (length qs) <> 0%Qc).
  { apply of_nat_pos. destruct qs; [contradiction|discriminate]. }
  field. exact Hn.
Qed.

Lemma arithmetic_mean_scale (c : Qc) (qs : list Qc) :
  arithmetic_mean (map (Qcmult c) qs) = (c * arithmetic_mean qs)%Qc.
Proof.
  rewrite !arithmetic_mean_eq. rewrite qsum_scale, length_map.
  unfold Qcdiv. ring.
Qed.

Lemma qsum_repeat (c : Qc) (n : nat) :
  fold_right Qcplus 0%Qc (repeat c n) = (of_nat n * c)%Qc.
Proof.
  induction n as [|n IH]; cbn [repeat fold_right].
  - change (of_nat 0) with 0%Qc. ring.
  - rewrite IH, of_nat_S. ring.
Qed.

Lemma sum_with_NaN (l : list scalar) : In NaN l -> Scalar.sum l = NaN.
Proof.
  unfold Scalar.sum. induction l as [|a l IH]; intros H; [contradiction|].
  cbn [fold_right]. destruct H as [->|H]; [reflexivity|].
  rewrite IH by exact H. now destruct a.
Qed.

(** X1.  In exact arithmetic (rounding and overflow aside), adding the same
    number to every element of a non-empty array does not change what
    [forward] returns. *)
Theorem forward_shift_invariant (s : list nat) (qs : list Qc) (c : Qc) :
  length qs = prod s -> prod s <> 0 ->
  exists y,
    forward (of_numbers s qs) = Ok y
    /\ forward (of_numbers s (map (fun q => q + c)%Qc qs)) = Ok y.
Proof.
  intros Hl Hn. eexists. split; [now apply forward_numbers|].
  rewrite forward_numbers by (rewrite ?length_map; assumption).
  rewrite arithmetic_mean_shift by now apply (nonempty_numbers s).
  do 2 f_equal. rewrite map_map. apply map_ext. intros q. ring.
Qed.

Lemma forward_shift_invariant_witness :
  exists y,
    forward (of_numbers [2] [Q2Qc 1; Q2Qc 4]) = Ok y
    /\ forward (of_numbers [2] (map (fun q => q + Q2Qc 10)%Qc [Q2Qc 1; Q2Qc 4]))
       = Ok y.
Proof.
  apply (forward_shift_invariant [2] [Q2Qc 1; Q2Qc 4] (Q2Qc 10)).
  - reflexivity.
  - simpl. lia.
Defined.

(** X2.  In exact arithmetic (rounding and overflow aside), multiplying
    every element of a non-empty array by [c] multiplies every element of the
    result by [c]. *)
Theorem forward_scales (s : list nat) (qs : list Qc) (c : Qc) :
  length qs = prod s -> prod s <> 0 ->
  exists ys,
    forward (of_numbers s qs) = Ok (of_numbers s ys)
    /\ forward (of_numbers s (map (Qcmult c) qs))
       = Ok (of_numbers s (map (Qcmult c) ys)).
Proof.
  intros Hl Hn. eexists. split; [now apply forward_numbers|].
  rewrite forward_numbers by (rewrite ?length_map; assumption).
  rewrite arithmetic_mean_scale.
  do 2 f_equal. rewrite !map_map. apply map_ext. intros q. ring.
Qed.

Lemma forward_scales_witness :
  exists ys,
    forward (of_numbers [2] [Q2Qc 1; Q2Qc 4]) = Ok (of_numbers [2] ys)
    /\ forward (of_numbers [2] (map (Qcmult (Q2Qc 3)) [Q2Qc 1; Q2Qc 4]))
       = Ok (of_numbers [2] (map (Qcmult (Q2Qc 3)) ys)).
Proof.
  apply (forward_scales [2] [Q2Qc 1; Q2Qc 4] (Q2Qc 3)).
  - reflexivity.
  - simpl. lia.
Defined.

(** X3.  In exact arithmetic (rounding and overflow aside), a non-empty
    array all of whose elements are the same number, an array with a single
    element or of shape [()] included, is sent to the array of zeros of the
    same shape. *)
Theorem forward_constant (s : list nat) (c : Qc) :
  prod s <> 0 ->
  forward (of_numbers s (repeat c (prod s)))
  = Ok (of_numbers s (repeat 0%Qc (prod s))).
Proof.
  intros Hn. rewrite forward_numbers by (rewrite ?repeat_length; auto).
  do 2 f_equal. rewrite arithmetic_mean_eq.
  rewrite qsum_repeat, repeat_length, map_repeat. f_equal.
  field. now apply of_nat_pos.
Qed.

Lemma forward_constant_witness :
  forward (of_numbers [3; 2] (repeat (Q2Qc 7) (prod [3; 2])))
  = Ok (of_numbers [3; 2] (repeat 0%Qc (prod [3; 2]))).
Proof.
  apply (forward_constant [3; 2] (Q2Qc 7)). simpl. lia.
Defined.

(** X4.  One NaN among the elements makes every element of the result NaN:
    the mean is NaN and it is subtracted from each element. *)
Theorem forward_NaN_spreads (x : tensor scalar) :
  wf x -> In NaN (data x) ->
  exists y,
    forward x = Ok y
    /\ shape y = shape x
    /\ length (data y) = length (data x)
    /\ Forall (fun a => a = NaN) (data y).
Proof.
  intros Hwf Hin. unfold forward.
  assert (Hm : Torch.mean x = mkTensor [] [NaN]).
  { unfold Torch.mean. rewrite (sum_with_NaN _ Hin).
    now destruct (numel x). }
  rewrite Hm, TorchFacts.sub_scalar by exact Hwf.
  eexists. split; [reflexivity|]. cbn [shape data].
  split; [reflexivity|]. split; [apply length_map|].
  apply Forall_forall. intros a Ha. apply in_map_iff in Ha.
  destruct Ha as [v [<- _]]. now destruct v.
Qed.

Lemma forward_NaN_spreads_witness :
  exists y,
    forward (mkTensor [3] [Num (Q2Qc 1); NaN; Num (Q2Qc 2)]) = Ok y
    /\ shape y = [3]
    /\ length (data y) = 3
    /\ Forall (fun a => a = NaN) (data y).
Proof.
  apply (forward_NaN_spreads (mkTensor [3] [Num (Q2Qc 1); NaN; Num (Q2Qc 2)])).
  - reflexivity.
  - right. left. reflexivity.
Defined.

(** X5.  On a well-formed array [forward] returns exactly when the dtype is
    a floating one, whatever the shape and the elements (an empty array and
    NaN elements included), and the result has the dtype and the shape of the
    input; an integer array raises. *)
Theorem forward_array_returns_iff (X : array) :
  wf (values X) ->
  (returns (forward_array X) <-> is_floating (dtype_of X) = true)
  /\ forall Y,
       forward_array X = Ok Y ->
       dtype_of Y = dtype_of X
       /\ shape (values Y) = shape (values X)
       /\ wf (values Y).
Proof.
  intros Hwf. destruct X as [d x]. cbn [values dtype_of] in *.
  destruct (is_floating d) eqn:Hd.
  - rewrite forward_array_floating by exact Hd.
    unfold forward, Torch.mean.
    rewrite TorchFacts.sub_scalar by exact Hwf.
    split.
    + split; [reflexivity|intros _; eexists; reflexivity].
    + intros Y HY. injection HY as <-. cbn [dtype_of values shape data].
      split; [reflexivity|]. split; [reflexivity|].
      unfold wf, numel in *. cbn [shape data]. now rewrite length_map.
  - destruct d; try discriminate Hd.
    split.
    + split; [intros [Y HY]; discriminate HY|intros H; discriminate H].
    + intros Y HY. discriminate HY.
Qed.

Lemma forward_array_returns_iff_witness :
  (returns (forward_array (mkArray float64 (mkTensor [2; 1] [NaN; Num (Q2Qc 1)])))
   <-> is_floating float64 = true)
  /\ forall Y,
       forward_array (mkArray float64 (mkTensor [2; 1] [NaN; Num (Q2Qc 1)])) = Ok Y ->
       dtype_of Y = float64
       /\ shape (values Y) = [2; 1]
       /\ wf (values Y).
Proof.
  apply (forward_array_returns_iff
           (mkArray float64 (mkTensor [2; 1] [NaN; Num (Q2Qc 1)]))).
  reflexivity.
Defined.



End CenteredLayerFacts.

(** ** MyLinear *)

Module MyLinearFacts.

Import MyLinear.

(** The value of a call, with the state monad unfolded. *)
Lemma call_unfold (self : t) (X : tensor scalar) :
  call self X
  = match Torch.matmul X (pdata (weight self)) with
    | Ok p =>
        match Torch.add p (Torch.vector (pdata (bias self))) with
        | Ok linear => Ok (Torch.relu linear)
        | Err e => Err e
        end
    | Err e => Err e
    end.
Proof. reflexivity. Qed.

Lemma init_has_params (in_units units : nat) (randn : nat -> Qc) :
  has_params (init in_units units randn) in_units units
    (map randn (seq 0 (in_units * units)))
    (map randn (seq (in_units * units) units)).
Proof.
  unfold has_params, init. cbn [weight bias pdata].
  rewrite !map_map, !length_map, !length_seq. repeat split.
Qed.


(** A call on an array: float32 goes to the call on its tensor, any other
    dtype is refused by [matmul]. *)
Lemma call_array_unfold (self : t) (X : array) :
  call_array self X
  = match dtype_of X with
    | float32 =>
        match call self (values X) with
        | Ok y => Ok (mkArray float32 y)
        | Err e => Err e
        end
    | _ => Err RuntimeError
    end.
Proof.
  destruct X as [d x]. rewrite call_unfold.
  destruct d; [|reflexivity|reflexivity].
  change (call_array self (mkArray float32 x))
    with (match Torch.matmul x (pdata (weight self)) with
          | Ok p =>
              match Torch.add p (Torch.vector (pdata (bias self))) with
              | Ok linear => Ok (mkArray float32 (Torch.relu linear))
              | Err e => Err e
              end
          | Err e => Err e
          end).
  cbn [dtype_of values].
  destruct (Torch.matmul x (pdata (weight self))) as [p|e]; [|reflexivity].
  destruct (Torch.add p (Torch.vector (pdata (bias self)))); reflexivity.
Qed.




(** C8.  An input whose last dimension is not [in_units] makes the call fail
    with the shape error of the matrix product; no value is returned. *)
Theorem forward_shape_mismatch
    (self : t) (in_units : nat) (X : tensor scalar) (lead : list nat) (m : nat) :
  Torch.rows (pdata (weight self)) = in_units ->
  shape X = lead ++ [m] ->
  m <> in_units ->
  call self X = Err RuntimeError /\ ~ returns (call self X).
Proof.
  intros Hr Hs Hm.
  assert (E : call self X = Err RuntimeError).
  { rewrite call_unfold.
    rewrite (TorchFacts.matmul_mismatch X _ lead m); [reflexivity|exact Hs|].
    now rewrite Hr. }
  split; [exact E|]. intros [Y HY]. rewrite E in HY. discriminate HY.
Qed.

Lemma forward_shape_mismatch_witness :
  call (init 5 3 (fun _ => Q2Qc 1)) (of_numbers [2; 1] [Q2Qc 1; Q2Qc 2])
  = Err RuntimeError
  /\ ~ returns (call (init 5 3 (fun _ => Q2Qc 1))
                     (of_numbers [2; 1] [Q2Qc 1; Q2Qc 2])).
Proof.
  apply (forward_shape_mismatch (init 5 3 (fun _ => Q2Qc 1)) 5
           (of_numbers [2; 1] [Q2Qc 1; Q2Qc 2]) [2] 1).
  - reflexivity.
  - reflexivity.
  - lia.
Defined.

(** C9.  A call leaves every attribute of the layer as it was, and its value
    is determined by the input and the values of the weight and of the bias:
    two layers that agree on these return the same. *)
Theorem forward_frame (self : t) (X : tensor scalar) :
  snd (runState (forward X) self) = self
  /\ forall self' : t,
       pdata (weight self') = pdata (weight self) ->
       pdata (bias self') = pdata (bias self) ->
       call self' X = call self X.
Proof.
  split; [reflexivity|].
  intros self' Hw Hb. rewrite !call_unfold, Hw, Hb. reflexivity.
Qed.

Lemma forward_frame_witness :
  snd (runState (forward (of_numbers [1; 1] [Q2Qc 2])) (init 1 1 (fun _ => Q2Qc 3)))
  = init 1 1 (fun _ => Q2Qc 3)
  /\ call (mkMyLinear
             (mkParameter (Torch.mkMatrix 1 1 [Num (Q2Qc 3)]) false
                (Some (Torch.mkMatrix 1 1 [Num (Q2Qc 7)])))
             (mkParameter [Num (Q2Qc 3)] false None)
             false)
          (of_numbers [1; 1] [Q2Qc 2])
     = call (init 1 1 (fun _ => Q2Qc 3)) (of_numbers [1; 1] [Q2Qc 2]).
Proof.
  split.
  - apply (forward_frame (init 1 1 (fun _ => Q2Qc 3)) (of_numbers [1; 1] [Q2Qc 2])).
  - apply (forward_frame (init 1 1 (fun _ => Q2Qc 3)) (of_numbers [1; 1] [Q2Qc 2]));
      reflexivity.
Defined.

(** *** Inputs of any rank, and layers in sequence *)



Lemma call_returns (self : t) (X : tensor scalar) (lead : list nat) :
  length (pdata (bias self)) = Torch.cols (pdata (weight self)) ->
  shape X = lead ++ [Torch.rows (pdata (weight self))] ->
  exists l,
    call self X = Ok (mkTensor (lead ++ [Torch.cols (pdata (weight self))]) l).
Proof.
  intros Hb Hs. rewrite call_unfold.
  destruct (TorchFacts.matmul_returns X (pdata (weight self)) lead Hs) as [l Hl].
  rewrite Hl, <- Hb.
  destruct (TorchFacts.add_bias_returns
              (mkTensor (lead ++ [length (pdata (bias self))]) l)
              (pdata (bias self)) lead eq_refl) as [l' Hl'].
  rewrite Hl'. eexists. reflexivity.
Qed.

Lemma call_inv (self : t) (X Y : tensor scalar) :
  length (pdata (bias self)) = Torch.cols (pdata (weight self)) ->
  call self X = Ok Y ->
  exists lead,
    shape X = lead ++ [Torch.rows (pdata (weight self))]
    /\ shape Y = lead ++ [Torch.cols (pdata (weight self))].
Proof.
  intros Hb H. rewrite call_unfold in H.
  destruct (Torch.matmul X (pdata (weight self))) as [P|e] eqn:EP; [|discriminate].
  destruct (TorchFacts.matmul_inv X _ P EP) as [lead [HX HP]].
  exists lead. split; [exact HX|].
  rewrite <- Hb in HP.
  destruct (TorchFacts.add_bias_returns P (pdata (bias self)) lead HP) as [l Hl].
  rewrite Hl in H. injection H as <-. cbn [Torch.relu shape]. now rewrite Hb.
Qed.



(** X8.  With a bias as long as the weight has columns, a call returns
    exactly on the float32 inputs that have a last dimension and that one
    equal to the number of rows of the weight; any other input (another
    dtype, another last dimension, no dimension at all) raises. *)
Theorem call_array_returns_iff (self : t) (X : array) :
  length (pdata (bias self)) = Torch.cols (pdata (weight self)) ->
  (returns (call_array self X)
   <-> dtype_of X = float32
       /\ exists lead,
            shape (values X) = lead ++ [Torch.rows (pdata (weight self))]).
Proof.
  intros Hb. rewrite call_array_unfold. split.
  - intros [Y HY]. destruct (dtype_of X); try discriminate HY.
    split; [reflexivity|].
    destruct (call self (values X)) as [y|e] eqn:E; [|discriminate HY].
    destruct (call_inv self (values X) y Hb E) as [lead [HX _]].
    exists lead. exact HX.
  - intros [Hd [lead HX]]. rewrite Hd.
    destruct (call_returns self (values X) lead Hb HX) as [l Hl].
    rewrite Hl. eexists. reflexivity.
Qed.

Lemma call_array_returns_iff_witness :
  returns (call_array (init 5 3 (fun _ => Q2Qc 1))
             (mkArray float32 (mkTensor [2; 5] (repeat NaN 10))))
  <-> float32 = float32 /\ exists lead, [2; 5] = lead ++ [5].
Proof.
  apply (call_array_returns_iff (init 5 3 (fun _ => Q2Qc 1))
           (mkArray float32 (mkTensor [2; 5] (repeat NaN 10)))).
  reflexivity.
Defined.



(** X10.  Two layers in sequence whose sizes do not chain (the first has [b]
    output units, the second expects [c <> b]) raise on every input: either the
    first layer refuses the input, or the second refuses what the first
    returns. *)
Theorem sequential_sizes_must_chain (l1 l2 : t) (X : tensor scalar) :
  length (pdata (bias l1)) = Torch.cols (pdata (weight l1)) ->
  Torch.cols (pdata (weight l1)) <> Torch.rows (pdata (weight l2)) ->
  raises (Sequential.forward [call l1; call l2] X).
Proof.
  intros Hb Hne. cbn [Sequential.forward bind ret Monad_result].
  destruct (call l1 X) as [Y|e] eqn:E1; [|now exists e].
  destruct (call_inv l1 X Y Hb E1) as [lead [_ HY]].
  rewrite call_unfold.
  rewrite (TorchFacts.matmul_mismatch Y _ lead _ HY Hne).
  now exists RuntimeError.
Qed.

Lemma sequential_sizes_must_chain_witness :
  raises (Sequential.forward
            [call (init 4 8 (fun _ => Q2Qc 1)); call (init 4 1 (fun _ => Q2Qc 1))]
            (of_numbers [1; 4] [Q2Qc 1; Q2Qc 2; Q2Qc 3; Q2Qc 4])).
Proof.
  apply (sequential_sizes_must_chain
           (init 4 8 (fun _ => Q2Qc 1)) (init 4 1 (fun _ => Q2Qc 1))
           (of_numbers [1; 4] [Q2Qc 1; Q2Qc 2; Q2Qc 3; Q2Qc 4])).
  - reflexivity.
  - simpl. lia.
Defined.

End MyLinearFacts.

(** ** TensorReductionLayer *)

Module TensorReductionFacts.

Import TensorReductionLayer.

(** The notebook's own check of the reduction: with [input_dim = 2],
    [x = [1, 2]] and [W] all ones, every channel is [(1 + 2)^2 = 9]; the two
    readings of [W] cannot be told apart on it. *)
Example forward_all_ones :
  forward (init 2 2 (fun _ => Q2Qc 1)) (of_numbers [1; 2] [Q2Qc 1; Q2Qc 2])
  = Ok (of_numbers [1; 2] [Q2Qc 9; Q2Qc 9]).
Proof. apply returns_tensor_eq. vm_compute. reflexivity. Qed.

(** With [output_dim] different from [input_dim] and from 1, and
    [input_dim >= 2], the sizes labelled [j] in the [einsum] equation are
    [input_dim] and [output_dim]: the call raises. *)
Lemma forward_rectangular (self : t) (n : nat) (xs : list scalar) :
  shape (W self) = [input_dim self; input_dim self; output_dim self] ->
  output_dim self <> input_dim self ->
  output_dim self <> 1 ->
  input_dim self <> 1 ->
  forward self (mkTensor [n; input_dim self] xs) = Err RuntimeError.
Proof.
  intros HW Hne Ho Hi. unfold forward.
  rewrite TorchFacts.unsqueeze_last_2d, TorchFacts.unsqueeze_1_2d.
  cbn [bind ret Monad_result].
  unfold Torch.mul. rewrite TorchFacts.outer_shape.
  unfold Torch.einsum_nij_kij_nk. cbn [shape]. rewrite HW.
  rewrite TorchFacts.bdim_same, TorchFacts.bdim_none by auto.
  reflexivity.
Qed.

(** With [output_dim = input_dim = d] the call returns, and what it returns is
    [y[a,k] = sum_i sum_j x[a,i] x[a,j] W[k,i,j]]: the output channel is the
    first axis of [W], not the last. *)
Lemma forward_square (self : t) (d n : nat) (ws xs : list Qc) :
  W self = of_numbers [d; d; d] ws ->
  length ws = d * (d * d) ->
  length xs = n * d ->
  forward self (of_numbers [n; d] xs)
  = Ok (of_numbers [n; d]
          (tab2 n d (fun a k =>
             qsum_upto d (fun i =>
               qsum_upto d (fun j =>
                 nth (a * d + i) xs 0 * nth (a * d + j) xs 0
                 * nth ((k * d + i) * d + j) ws 0)))%Qc)).
Proof.
  intros HW Hw Hx. unfold forward, of_numbers.
  rewrite TorchFacts.unsqueeze_last_2d, TorchFacts.unsqueeze_1_2d.
  cbn [bind ret Monad_result].
  unfold Torch.mul. rewrite TorchFacts.outer_shape.
  unfold Torch.einsum_nij_kij_nk. rewrite HW. unfold of_numbers.
  cbn [shape data]. rewrite !TorchFacts.bdim_same.
  do 2 f_equal. rewrite map_tab2. apply tab2_ext. intros a k Ha Hk.
  apply sum_upto_numbers. intros i Hi.
  apply sum_upto_numbers. intros j Hj.
  rewrite (TorchFacts.nth_ravel_indices NaN [n; d; d])
    by now apply TorchFacts.in_indices3.
  rewrite TorchFacts.outer_entry by assumption.
  cbn [Torch.ravel prod fold_right].
  rewrite !TorchFacts.stretch_index by assumption.
  replace (k * (d * (d * 1)) + (i * (d * 1) + (j * 1 + 0)))
    with ((k * d + i) * d + j) by nia.
  now rewrite nth_numbers by nia.
Qed.

(** C1 does not hold of the code.  The layer is built with
    [input_dim = output_dim = 2] and [W[0,0,1] = 1], every other entry 0;
    on [x = [[1, 0]]] the documented reduction is [[0, 1]], and [forward]
    returns [[0, 0]]: the equation ['nij,kij->nk'] reads the first axis of
    [W] as the output channel.  With [input_dim = 4] and [output_dim = 2],
    the sizes of the contract's own example, every call raises. *)
Theorem forward_reads_W_transposed :
  forward
    (mkTensorReductionLayer 2 2
       (of_numbers [2; 2; 2]
          [Q2Qc 0; Q2Qc 1; Q2Qc 0; Q2Qc 0; Q2Qc 0; Q2Qc 0; Q2Qc 0; Q2Qc 0]))
    (of_numbers [1; 2] [Q2Qc 1; Q2Qc 0])
  = Ok (of_numbers [1; 2] [Q2Qc 0; Q2Qc 0])
  /\ reduction 1 2 2
       [Q2Qc 0; Q2Qc 1; Q2Qc 0; Q2Qc 0; Q2Qc 0; Q2Qc 0; Q2Qc 0; Q2Qc 0]
       [Q2Qc 1; Q2Qc 0]
     = [Q2Qc 0; Q2Qc 1]
  /\ (forall randn xs,
        forward (init 4 2 randn) (mkTensor [3; 4] xs) = Err RuntimeError).
Proof.
  split; [|split].
  - apply returns_tensor_eq. vm_compute. reflexivity.
  - apply (list_eqb_eq Qc_eq_bool Qc_eq_bool_correct). vm_compute. reflexivity.
  - intros randn xs.
    apply (forward_rectangular (init 4 2 randn) 3 xs);
      [reflexivity|discriminate|discriminate|discriminate].
Qed.

(** *** What the layer computes, and when it returns *)







(** X14.  An input that does not have exactly two dimensions raises: a
    0-dimensional one at [unsqueeze(1)], any other in the product or in
    [einsum], which wants three dimensions. *)
Theorem forward_rank_not_2 (self : t) (x : tensor scalar) :
  length (shape x) <> 2 -> raises (forward self x).
Proof.
  intros Hr. unfold forward. rewrite TorchFacts.unsqueeze_last.
  cbn [bind ret Monad_result].
  destruct (shape x) as [|d s] eqn:Es.
  - rewrite (TorchFacts.unsqueeze_1_scalar x Es). now exists IndexError.
  - rewrite (TorchFacts.unsqueeze_1_some x d s Es).
    unfold Torch.mul, Torch.broadcast2. cbn [shape data].
    destruct (Torch.broadcast_shapes ((d :: s) ++ [1]) (d :: 1 :: s))
      as [s'|] eqn:Eb; [|now exists RuntimeError].
    apply TorchFacts.broadcast_shapes_length in Eb.
    rewrite length_app in Eb. cbn [length] in *.
    cbn [bind ret Monad_result].
    rewrite TorchFacts.einsum_rank by (cbn [shape]; lia).
    now exists RuntimeError.
Qed.

Lemma forward_rank_not_2_witness :
  raises (forward (init 2 2 (fun _ => Q2Qc 1)) (of_numbers [2] [Q2Qc 1; Q2Qc 2])).
Proof.
  apply (forward_rank_not_2 (init 2 2 (fun _ => Q2Qc 1))
           (of_numbers [2] [Q2Qc 1; Q2Qc 2])).
  simpl. lia.
Defined.

(** X15.  With [output_dim = input_dim], in exact arithmetic (rounding and
    overflow aside), the result is quadratic in the input: multiplying every
    element of the input by [c] multiplies every element of the result by
    [c * c]; in particular [x] and [-x] give the same result. *)
Theorem forward_quadratic (self : t) (d n : nat) (ws xs : list Qc) (c : Qc) :
  W self = of_numbers [d; d; d] ws ->
  length ws = d * (d * d) ->
  length xs = n * d ->
  exists ys,
    forward self (of_numbers [n; d] xs) = Ok (of_numbers [n; d] ys)
    /\ forward self (of_numbers [n; d] (map (Qcmult c) xs))
       = Ok (of_numbers [n; d] (map (Qcmult (c * c)) ys)).
Proof.
  intros HW Hw Hx. eexists.
  split; [exact (forward_square self d n ws xs HW Hw Hx)|].
  rewrite (forward_square self d n ws) by (rewrite ?length_map; assumption).
  do 2 f_equal. rewrite map_tab2. apply tab2_ext. intros a k _ _.
  rewrite <- qsum_upto_scale. apply qsum_upto_ext. intros i _.
  rewrite <- qsum_upto_scale. apply qsum_upto_ext. intros j _.
  rewrite !nth_scaled. ring.
Qed.

Lemma forward_quadratic_witness :
  exists ys,
    forward (init 2 2 (fun _ => Q2Qc 1)) (of_numbers [1; 2] [Q2Qc 1; Q2Qc 2])
    = Ok (of_numbers [1; 2] ys)
    /\ forward (init 2 2 (fun _ => Q2Qc 1))
         (of_numbers [1; 2] (map (Qcmult (Q2Qc (-1))) [Q2Qc 1; Q2Qc 2]))
       = Ok (of_numbers [1; 2] (map (Qcmult (Q2Qc (-1) * Q2Qc (-1))) ys)).
Proof.
  apply (forward_quadratic (init 2 2 (fun _ => Q2Qc 1)) 2 1
           (map (fun _ => Q2Qc 1) (seq 0 (2 * (2 * 2))))
           [Q2Qc 1; Q2Qc 2] (Q2Qc (-1))); reflexivity.
Defined.

End TensorReductionFacts.

(** ** FourierCoefficientsLayer *)

Module FourierFacts.

Import FourierCoefficientsLayer.

Lemma Csum_upto_ext (n : nat) (f g : nat -> C) :
  (forall j, j < n -> f j = g j) -> Csum_upto n f = Csum_upto n g.
Proof.
  intros H. unfold Csum_upto. f_equal.
  apply map_ext_in. intros j Hj. apply in_seq in Hj. apply H. lia.
Qed.

Lemma twiddle_0 (n j : nat) : twiddle n j 0 = (1, 0)%R.
Proof.
  unfold twiddle. cbn [INR]. unfold Rdiv.
  rewrite Rmult_0_r, Rmult_0_l, cos_0, sin_0. f_equal. apply Ropp_0.
Qed.

Lemma Cmul_1_r (a : C) : Cmul a (1, 0)%R = a.
Proof. destruct a as [x y]. unfold Cmul. cbn [fst snd]. f_equal; ring. Qed.

(** The transform carries no normalisation factor: its entry 0 is the plain
    sum of the sequence. *)
Remark dft_entry_0 (xs : list C) : dft_entry xs 0 = fold_right Cadd C0 xs.
Proof.
  unfold dft_entry, Csum_upto.
  transitivity (fold_right Cadd C0 (map (fun j => nth j xs C0) (seq 0 (length xs)))).
  - f_equal. apply map_ext. intros j. now rewrite twiddle_0, Cmul_1_r.
  - now rewrite nth_all.
Qed.

Lemma dft_model_contract : fft_contract dft_model.
Proof.
  intros t lead n Hs Hn _. unfold dft_model.
  apply Nat.eqb_neq in Hn. rewrite Hn, Hs.
  destruct lead; reflexivity.
Qed.

Lemma dft_model_refuses : fft_refuses dft_model.
Proof.
  split.
  - intros t Hs. unfold dft_model. now rewrite Hs.
  - intros t Hs Hn. unfold dft_model.
    apply Nat.eqb_eq in Hn. rewrite Hn.
    destruct (shape t); [contradiction|reflexivity].
Qed.

(** The cast keeps the shape and the values of the argument. *)
Lemma cast_shape (x : input) : shape (to_complex64 x) = input_shape x.
Proof. destruct x; reflexivity. Qed.


Lemma cast_wf (x : input) : input_wf x -> wf (to_complex64 x).
Proof.
  destruct x as [t|t]; cbn [input_wf to_complex64]; [|trivial].
  unfold wf, numel. cbn [shape data]. now rewrite length_map.
Qed.

Lemma numel_2d {A} (t : tensor A) (nr n : nat) :
  shape t = [nr; n] -> 1 <= nr -> 1 <= n -> numel t <> 0.
Proof.
  intros Hs Hr Hn. unfold numel. rewrite Hs. cbn [prod fold_right]. nia.
Qed.

(** The transform of a 2-dimensional tensor, row by row. *)
Lemma dft_last_rows (nr n : nat) (l : list C) :
  length l = nr * n ->
  dft_last (mkTensor [nr; n] l)
  = mkTensor [nr; n] (tab2 nr n (fun r k => dft_entry (row n r l) k)).
Proof.
  intros Hl. unfold dft_last. cbn [shape data rev app prod fold_right].
  rewrite Nat.mul_1_r. f_equal.
  apply tab2_ext. intros r k Hr Hk.
  unfold dft_entry, row. rewrite (length_row n nr) by assumption.
  apply Csum_upto_ext. intros j Hj.
  now rewrite nth_row.
Qed.

Section Layer.

Variable fft : tensor C -> result (tensor C).
Hypothesis fft_ok : fft_contract fft.

Lemma forward_2d (x : input) (nr n : nat) :
  shape (to_complex64 x) = [nr; n] -> wf (to_complex64 x) ->
  1 <= nr -> 1 <= n ->
  forward fft x
  = Ok (mkTensor [nr; n / 2]
          (flat_map
             (fun r => firstn (n / 2)
                         (map (dft_entry (row n r (data (to_complex64 x))))
                              (seq 0 n)))
             (seq 0 nr))).
Proof.
  intros Hs Hwf Hnr Hn. unfold forward.
  rewrite (fft_ok (to_complex64 x) [nr] n Hs
             (numel_2d (to_complex64 x) nr n Hs Hnr Hn) Hwf).
  destruct (to_complex64 x) as [s l]. cbn [shape data] in *. subst s.
  unfold wf, numel in Hwf. cbn [shape data prod fold_right] in Hwf.
  rewrite dft_last_rows by lia.
  cbn [bind ret Monad_result Torch.shape_at shape nth_error].
  rewrite TorchFacts.slice_cols.
  assert (Hh : Nat.min (n / 2) n = n / 2)
    by (apply Nat.min_l, Nat.Div0.div_le_upper_bound; lia).
  f_equal. f_equal; [now rewrite Hh|].
  apply flat_map_ext_on. intros r Hr. apply in_seq in Hr.
  rewrite <- firstn_firstn, row_tab2 by lia. reflexivity.
Qed.



Hypothesis fft_no : fft_refuses fft.

(** C6, as the code has it.  An input of shape [(batch, 1)], [batch >= 1],
    is not rejected: [forward] returns the array of shape [(batch, 0)], which
    has no element.  An input with a dimension of length zero, the transform
    axis or the batch, is rejected, by [torch.fft.fft]. *)
Theorem forward_short_axis :
  (forall x batch,
     input_shape x = [batch; 1] -> input_wf x -> 1 <= batch ->
     forward fft x = Ok (mkTensor [batch; 0] []))
  /\ (forall x,
        input_shape x <> [] -> prod (input_shape x) = 0 ->
        forward fft x = Err RuntimeError).
Proof.
  split.
  - intros x batch Hs Hwf Hb. rewrite <- cast_shape in Hs. apply cast_wf in Hwf.
    rewrite (forward_2d x batch 1 Hs Hwf) by lia.
    cbn [Nat.div Nat.divmod fst firstn]. now rewrite flat_map_nil.
  - intros x Hs Hn. rewrite <- cast_shape in Hs, Hn.
    unfold forward. rewrite (proj2 fft_no (to_complex64 x) Hs Hn). reflexivity.
Qed.

End Layer.

(** The four-point transform has the twiddle factors [1, -i, -1, i] in its
    entry 1: the forward sign, and no factor [1/n]. *)
Lemma twiddle_4 :
  twiddle 4 0 1 = (1, 0)%R /\ twiddle 4 1 1 = (0, -1)%R
  /\ twiddle 4 2 1 = (-1, 0)%R /\ twiddle 4 3 1 = (0, 1)%R.
Proof.
  unfold twiddle. repeat split.
  - replace (2 * PI * INR 0 * INR 1 / INR 4)%R with 0%R by (simpl; field).
    rewrite cos_0, sin_0. f_equal. apply Ropp_0.
  - replace (2 * PI * INR 1 * INR 1 / INR 4)%R with (PI / 2)%R by (simpl; field).
    now rewrite cos_PI2, sin_PI2.
  - replace (2 * PI * INR 2 * INR 1 / INR 4)%R with PI by (simpl; field).
    rewrite cos_PI, sin_PI. f_equal. apply Ropp_0.
  - replace (2 * PI * INR 3 * INR 1 / INR 4)%R with (3 * (PI / 2))%R
      by (simpl; field).
    rewrite cos_3PI2, sin_3PI2. f_equal. apply Ropp_involutive.
Qed.

(** On [[1, 2, 3, 4]] the layer returns [[10, -2 + 2i]], the first half of
    the transform [10, -2 + 2i, -2, -2 - 2i]. *)
Example forward_1234 :
  forward dft_model (Real (mkTensor [1; 4] [1; 2; 3; 4]%R))
  = Ok (mkTensor [1; 2] [(10, 0); (-2, 2)]%R).
Proof.
  rewrite (forward_2d dft_model dft_model_contract
             (Real (mkTensor [1; 4] [1; 2; 3; 4]%R)) 1 4 eq_refl eq_refl) by lia.
  change (4 / 2) with 2.
  cbn [seq flat_map map firstn app to_complex64 data shape row skipn Nat.mul].
  destruct twiddle_4 as (T0 & T1 & T2 & T3).
  do 3 f_equal.
  - rewrite dft_entry_0. unfold Cadd, C0, RtoC. cbn [fold_right fst snd].
    f_equal; ring.
  - f_equal. unfold dft_entry, Csum_upto.
    cbn [length seq map fold_right nth]. rewrite T0, T1, T2, T3.
    unfold Cadd, Cmul, C0, RtoC. cbn [fst snd]. f_equal; ring.
Qed.



Lemma forward_short_axis_witness :
  (forall x batch,
     input_shape x = [batch; 1] -> input_wf x -> 1 <= batch ->
     forward dft_model x = Ok (mkTensor [batch; 0] []))
  /\ (forall x,
        input_shape x <> [] -> prod (input_shape x) = 0 ->
        forward dft_model x = Err RuntimeError).
Proof.
  apply (forward_short_axis dft_model dft_model_contract dft_model_refuses).
Defined.

(** C6, as stated, fails: the input [[5.]] of shape [(1, 1)] is not
    rejected. *)
Lemma forward_single_column_not_rejected :
  input_shape (Real (mkTensor [1; 1] [5%R])) = [1; 1]
  /\ input_wf (Real (mkTensor [1; 1] [5%R]))
  /\ forward dft_model (Real (mkTensor [1; 1] [5%R])) = Ok (mkTensor [1; 0] [])
  /\ ~ raises (forward dft_model (Real (mkTensor [1; 1] [5%R]))).
Proof.
  assert (E : forward dft_model (Real (mkTensor [1; 1] [5%R]))
              = Ok (mkTensor [1; 0] [])).
  { rewrite (forward_2d dft_model dft_model_contract
               (Real (mkTensor [1; 1] [5%R])) 1 1 eq_refl eq_refl) by lia.
    reflexivity. }
  split; [reflexivity|]. split; [reflexivity|]. split; [exact E|].
  intros [e He]. rewrite E in He. discriminate He.
Qed.

(** *** Other ranks *)


Section OtherRanks.

Variable fft : tensor C -> result (tensor C).
Hypothesis fft_ok : fft_contract fft.

(** X16.  A single sequence, of shape [(n,)], is refused: after the
    transform, [fft.shape[1]] does not exist. *)
Theorem forward_1d (x : input) (n : nat) :
  shape (to_complex64 x) = [n] ->
  wf (to_complex64 x) ->
  1 <= n ->
  forward fft x = Err IndexError.
Proof.
  intros Hs Hwf Hn. unfold forward.
  assert (Hne : numel (to_complex64 x) <> 0)
    by (unfold numel; rewrite Hs; cbn [prod fold_right]; lia).
  rewrite (fft_ok (to_complex64 x) [] n Hs Hne Hwf).
  unfold dft_last. rewrite Hs. reflexivity.
Qed.



End OtherRanks.

Lemma forward_1d_witness :
  forward dft_model (Real (mkTensor [2] [1%R; 2%R])) = Err IndexError.
Proof.
  apply (forward_1d dft_model dft_model_contract
           (Real (mkTensor [2] [1%R; 2%R])) 2).
  - reflexivity.
  - reflexivity.
  - lia.
Defined.


End FourierFacts.
